(** * useUndoRedo: a linear undo/redo history over a JavaScript value

    Shallow embedding of the hook [useUndoRedo] (src/worker/env.d.ts,
    second fragment) and the properties of its operations.

    The tracked value [T] is a JavaScript value at run time.  The hook looks
    at it in two ways only: through [JSON.stringify] (in [isEqual]) and
    through its truthiness (the guard [lastPast && ...] in [setState]).
    Both are modelled on the JSON-serialisable fragment of the language
    extended with [undefined]: numbers are the integer-valued ones together
    with NaN and the two infinities, and there are no functions, symbols,
    BigInts or cyclic objects (on which [JSON.stringify] would throw).

    React applies the updaters given to [setHistory] one after the other,
    each to the result of the one before; the operations are modelled as
    functions on the state of the hook, each applied to the state the
    previous one left.  What a render has computed and what its closures
    have captured is kept beside that state: [markAsSaved] reads the
    [history.present] of the render it was created in, and the
    [hasUnsavedChanges] the hook returns is the one of the last render. *)

From Stdlib Require Import Bool List ZArith Lia Ascii String DecimalString.
Import ListNotations.

(* ================================================================== *)
(** ** JavaScript values *)

Module JS.

Local Open Scope string_scope.

Inductive Number : Type :=
| Int (z : Z)
| NaN
| Infinity
| NegInfinity.

#[local] Unset Elimination Schemes.
Inductive Value : Type :=
| Undefined
| Null
| Boolean (b : bool)
| Num (n : Number)
| Str (s : string)
| Array (elems : list Value)
| Object (props : list (string * Value)).
#[local] Set Elimination Schemes.

(** [ToBoolean]: the falsy values are undefined, null, false, 0, NaN
    and the empty string; every object and array is truthy. *)
Definition truthy (v : Value) : bool :=
  match v with
  | Undefined | Null => false
  | Boolean b => b
  | Num (Int z) => negb (z =? 0)%Z
  | Num NaN => false
  | Num _ => true
  | Str s => negb (String.eqb s EmptyString)
  | Array _ | Object _ => true
  end.

(** [a[i]]: reading outside the array gives [undefined]. *)
Definition index (a : list Value) (i : Z) : Value :=
  if (i <? 0)%Z then Undefined else nth (Z.to_nat i) a Undefined.

(** [a.slice(from, to)] for [0 <= from]. *)
Definition slice (a : list Value) (from to : Z) : list Value :=
  skipn (Z.to_nat from) (firstn (Z.to_nat to) a).

(** [a.slice(from)]. *)
Definition slice_from (a : list Value) (from : Z) : list Value :=
  skipn (Z.to_nat from) a.

(** [a.length] *)
Definition len (a : list Value) : Z := Z.of_nat (List.length a).

(** *** JSON.stringify *)

Definition hex_digit (n : nat) : ascii :=
  nth n ["0";"1";"2";"3";"4";"5";"6";"7";"8";"9";"a";"b";"c";"d";"e";"f"]%char
      "0"%char.

Definition dquote : ascii := ascii_of_nat 34.
Definition backslash : ascii := ascii_of_nat 92.

(** One code unit of [QuoteJSONString]. *)
Definition escape_char (c : ascii) : string :=
  let n := nat_of_ascii c in
  if Nat.eqb n 34 then String backslash (String dquote EmptyString)
  else if Nat.eqb n 92 then String backslash (String backslash EmptyString)
  else if Nat.eqb n 8 then "\b"
  else if Nat.eqb n 9 then "\t"
  else if Nat.eqb n 10 then "\n"
  else if Nat.eqb n 12 then "\f"
  else if Nat.eqb n 13 then "\r"
  else if Nat.ltb n 32 then
    "\u00" ++ String (hex_digit (n / 16))
                 (String (hex_digit (n mod 16)) EmptyString)
  else String c EmptyString.

Fixpoint escape (s : string) : string :=
  match s with
  | EmptyString => EmptyString
  | String c r => escape_char c ++ escape r
  end.

Definition quote (s : string) : string :=
  String dquote (escape s ++ String dquote EmptyString).

(** A finite number is written in decimal digits (as JavaScript writes the
    integers below 10^21); NaN and the infinities are written [null]. *)
Definition number_to_json (n : Number) : string :=
  match n with
  | Int z => NilZero.string_of_int (Z.to_int z)
  | NaN | Infinity | NegInfinity => "null"
  end.

Fixpoint join (sep : string) (l : list string) : string :=
  match l with
  | [] => EmptyString
  | [x] => x
  | x :: r => x ++ sep ++ join sep r
  end.

(** [JSON.stringify v]; [None] is the result [undefined].  An
    [undefined] element of an array is written [null], an [undefined]
    property of an object is left out. *)
Fixpoint stringify (v : Value) : option string :=
  match v with
  | Undefined => None
  | Null => Some "null"
  | Boolean true => Some "true"
  | Boolean false => Some "false"
  | Num n => Some (number_to_json n)
  | Str s => Some (quote s)
  | Array elems =>
      Some ("[" ++ join ","
              (map (fun e => match stringify e with
                             | Some s => s
                             | None => "null"
                             end) elems) ++ "]")
  | Object props =>
      Some ("{" ++ join ","
              (flat_map (fun p => match stringify (snd p) with
                                  | Some s => [quote (fst p) ++ ":" ++ s]
                                  | None => []
                                  end) props) ++ "}")
  end.

(** [x === y] on results of [JSON.stringify] (a string or undefined). *)
Definition strict_eq (x y : option string) : bool :=
  match x, y with
  | None, None => true
  | Some s, Some t => String.eqb s t
  | _, _ => false
  end.

End JS.

Import JS.

(* ================================================================== *)
(** ** The hook *)

(** [const isEqual = (a, b) => JSON.stringify(a) === JSON.stringify(b)] *)
Definition isEqual (a b : Value) : bool :=
  strict_eq (stringify a) (stringify b).


(** *** Objects and their identity

    A history object is never written to after it is built: every operation
    either hands back the object it was given or builds a new one from an
    object literal.  A reference is therefore modelled as the identity of the
    object (the number of objects built before it) together with its
    contents, and building an object draws the next identity. *)

Record HistoryState : Type := mkHistory {
  past : list Value;
  present : Value;
  future : list Value
}.

Record Ref : Type := mkRef {
  ident : nat;
  deref : HistoryState
}.

(** A computation that may build objects: it threads the number of objects
    built so far. *)
Definition Alloc (A : Type) : Type := nat -> A * nat.

(** [return h]: the reference itself. *)
Definition ret {A : Type} (a : A) : Alloc A := fun n => (a, n).

(** An object literal [{ past: .., present: .., future: .. }]. *)
Definition new (h : HistoryState) : Alloc Ref :=
  fun n => (mkRef n h, S n).

(** What the last render of the hook has left: the [history] it read from
    [useState], which its closures still see, and the [hasUnsavedChanges] it
    returned. *)
Record View : Type := mkView {
  seen : Ref;
  shown_hasUnsavedChanges : bool
}.

(** The state of one instance of the hook: what [useState] holds, the number
    of history objects built so far, [lastSavedState.current], and the last
    render. *)
Record Hook : Type := mkHook {
  history : Ref;
  built : nat;
  lastSavedState : Value;
  view : View
}.

(** [setHistory(updater)]: the stored reference becomes what the updater
    returns for the stored one. *)
Definition setHistory_with (updater : Ref -> Alloc Ref) (m : Hook) : Hook :=
  let (h', n') := updater (history m) (built m) in
  mkHook h' n' (lastSavedState m) (view m).

(** [setHistory(value)] *)
Definition setHistory_to (value : Alloc Ref) (m : Hook) : Hook :=
  let (h', n') := value (built m) in
  mkHook h' n' (lastSavedState m) (view m).

(** [useUndoRedo(initialState)], first render: the history object is built,
    the ref is set, and [hasUnsavedChanges] is computed from the two. *)
Definition useUndoRedo (initialState : Value) : Hook :=
  let (h, n) := new (mkHistory [] initialState []) 0 in
  mkHook h n initialState
         (mkView h (negb (isEqual (present (deref h)) initialState))).

Definition state (m : Hook) : Value := present (deref (history m)).

Definition canUndo (m : Hook) : bool :=
  (len (past (deref (history m))) >? 0)%Z.

Definition canRedo (m : Hook) : bool :=
  (len (future (deref (history m))) >? 0)%Z.

(** *** undo *)

Definition undo_updater (h : Ref) : Alloc Ref :=
  let hs := deref h in
  if (len (past hs) =? 0)%Z then ret h
  else
    let previous := index (past hs) (len (past hs) - 1) in
    let newPast := slice (past hs) 0 (len (past hs) - 1) in
    new (mkHistory newPast previous (present hs :: future hs)).

Definition undo : Hook -> Hook := setHistory_with undo_updater.

(** *** redo *)

Definition redo_updater (h : Ref) : Alloc Ref :=
  let hs := deref h in
  if (len (future hs) =? 0)%Z then ret h
  else
    let next := index (future hs) 0 in
    let newFuture := slice_from (future hs) 1 in
    new (mkHistory (past hs ++ [present hs]) next newFuture).

Definition redo : Hook -> Hook := setHistory_with redo_updater.

(** *** setState *)

(** The argument [value: T | ((prev: T) => T)], told apart in the source by
    [typeof value === "function"]. *)
Inductive SetArg : Type :=
| Literal (v : Value)
| Updater (f : Value -> Value).

Definition nextValue_of (value : SetArg) (hs : HistoryState) : Value :=
  match value with
  | Updater f => f (present hs)
  | Literal v => v
  end.

Definition setState_updater (value : SetArg) (h : Ref) : Alloc Ref :=
  let hs := deref h in
  let nextValue := nextValue_of value hs in
  if isEqual nextValue (present hs) then ret h
  else
    let lastPast := index (past hs) (len (past hs) - 1) in
    if truthy lastPast && isEqual lastPast nextValue then
      new (mkHistory (past hs) nextValue (future hs))
    else
      new (mkHistory (past hs ++ [present hs]) nextValue []).

Definition setState (value : SetArg) : Hook -> Hook :=
  setHistory_with (setState_updater value).

(** *** reset *)

Definition reset (newState : Value) (m : Hook) : Hook :=
  let m' := setHistory_to (new (mkHistory [] newState [])) m in
  mkHook (history m') (built m') newState (view m').

(** *** markAsSaved, hasUnsavedChanges *)

(** [lastSavedState.current = history.present], where [history] is the
    variable of the render that created the callback: the history that
    render saw, not one stored since.  Nothing is given to [setHistory]. *)
Definition markAsSaved (m : Hook) : Hook :=
  mkHook (history m) (built m) (present (deref (seen (view m)))) (view m).

(** [!isEqual(history.present, lastSavedState.current)], as a render in
    state [m] computes it. *)
Definition hasUnsavedChanges (m : Hook) : bool :=
  negb (isEqual (present (deref (history m))) (lastSavedState m)).

(** *** Renders *)

(** A render: the body of the hook runs again, reads the stored history and
    computes [hasUnsavedChanges]; the callbacks it returns see that
    history. *)
Definition render (m : Hook) : Hook :=
  mkHook (history m) (built m) (lastSavedState m)
         (mkView (history m) (hasUnsavedChanges m)).

(** React renders again when the stored state is another object than the one
    the last render read. *)
Definition render_if_changed (m : Hook) : Hook :=
  if Nat.eqb (ident (history m)) (ident (seen (view m))) then m else render m.

(** The hook is in step with its last render: no update since. *)
Definition rendered (m : Hook) : Prop := seen (view m) = history m.

(* ================================================================== *)
(** ** Sequences of operations *)

Inductive Op : Type :=
| OpSet (value : SetArg)
| OpUndo
| OpRedo
| OpReset (newState : Value)
| OpMarkAsSaved.

(** One call, made with the callbacks of the last render. *)
Definition step (m : Hook) (op : Op) : Hook :=
  match op with
  | OpSet value => setState value m
  | OpUndo => undo m
  | OpRedo => redo m
  | OpReset newState => reset newState m
  | OpMarkAsSaved => markAsSaved m
  end.

(** Calls in order, with no render between them. *)
Definition run (ops : list Op) (m : Hook) : Hook := fold_left step ops m.

(** One event: its handler makes the calls in order, with the callbacks of
    the last render, and then React renders if the stored object is another
    one. *)
Definition event (ops : list Op) (m : Hook) : Hook :=
  render_if_changed (run ops m).

(** Event after event. *)
Definition events (handlers : list (list Op)) (m : Hook) : Hook :=
  fold_left (fun m' ops => event ops m') handlers m.

(** The contents of the stored history object. *)
Definition contents (m : Hook) : HistoryState := deref (history m).

(** The second branch of [setState]: the value differs from [present], the
    last entry of [past] is truthy and equal to the value. *)
Definition takes_dedup_branch (value : SetArg) (hs : HistoryState) : bool :=
  let nextValue := nextValue_of value hs in
  let lastPast := index (past hs) (len (past hs) - 1) in
  negb (isEqual nextValue (present hs))
  && (truthy lastPast && isEqual lastPast nextValue).

(** The case the second branch is written for (an undo-equivalent write):
    the value differs from [present] and the last entry of [past] exists and
    is equal to the value, truthy or not. *)
Definition equals_last_past (v : Value) (l : list Value) : bool :=
  negb (len l =? 0)%Z && isEqual (index l (len l - 1)) v.

Definition undo_equivalent_write (value : SetArg) (hs : HistoryState) : bool :=
  let nextValue := nextValue_of value hs in
  negb (isEqual nextValue (present hs))
  && equals_last_past nextValue (past hs).

Definition op_rewrites_last_past (op : Op) (m : Hook) : bool :=
  match op with
  | OpSet value => undo_equivalent_write value (contents m)
  | _ => false
  end.

(** No operation of the sequence, run from [m], is a [setState] with an
    undo-equivalent write. *)
Fixpoint dedup_free (ops : list Op) (m : Hook) : bool :=
  match ops with
  | [] => true
  | op :: rest => negb (op_rewrites_last_past op m) && dedup_free rest (step m op)
  end.

(** *** The deduplication invariant *)

Fixpoint no_adjacent_equal (l : list Value) : bool :=
  match l with
  | a :: (b :: _) as t => negb (isEqual a b) && no_adjacent_equal t
  | _ => true
  end.

(** Neither [past] nor [future] has two adjacent equal elements, and the
    neighbours of [present] (the last of [past], the first of [future])
    differ from it. *)
Definition deduplicated (hs : HistoryState) : bool :=
  no_adjacent_equal (past hs)
  && no_adjacent_equal (future hs)
  && match past hs with
     | [] => true
     | _ :: _ => negb (isEqual (last (past hs) Undefined) (present hs))
     end
  && match future hs with
     | [] => true
     | f :: _ => negb (isEqual (present hs) f)
     end.

(** The whole line of values, oldest first. *)
Definition timeline (hs : HistoryState) : list Value :=
  past hs ++ present hs :: future hs.

(** The identity of the stored object is below the count of objects built,
    so that the next object built is a different one. *)
Definition well_formed (m : Hook) : Prop := ident (history m) < built m.

(** The identities of the stored object and of the object the last render
    read are below the count of objects built, and they are the same object
    when they have the same identity. *)
Definition coherent (m : Hook) : Prop :=
  ident (history m) < built m
  /\ ident (seen (view m)) < built m
  /\ (ident (seen (view m)) = ident (history m) -> seen (view m) = history m).

(** Numbers, for the examples. *)
Definition num (z : Z) : Value := Num (Int z).

(** construct(0); set(1); set(2); undo() *)
Definition after_0_1_2_undo : Hook :=
  run [OpSet (Literal (num 1)); OpSet (Literal (num 2)); OpUndo]
      (useUndoRedo (num 0)).

(** construct(1); set(2); set(3); undo() *)
Definition after_1_2_3_undo : Hook :=
  run [OpSet (Literal (num 2)); OpSet (Literal (num 3)); OpUndo]
      (useUndoRedo (num 1)).

(** construct(1); set(2); set(1) *)
Definition after_1_2_1 : Hook :=
  run [OpSet (Literal (num 2)); OpSet (Literal (num 1))]
      (useUndoRedo (num 1)).

(** construct(0), then setState(1) with no render yet *)
Definition after_0_set_1_unrendered : Hook :=
  setState (Literal (num 1)) (useUndoRedo (num 0)).

(** set(1); set(prev => 2); undo(); undo(); redo(); set(5) *)
Definition scenario : list Op :=
  [OpSet (Literal (num 1)); OpSet (Updater (fun _ => num 2));
   OpUndo; OpUndo; OpRedo; OpSet (Literal (num 5))].

(** *** Repeated calls *)

(** [undo()] called [k] times, [redo()] called [k] times. *)
Definition undo_times (k : nat) (m : Hook) : Hook := Nat.iter k undo m.
Definition redo_times (k : nat) (m : Hook) : Hook := Nat.iter k redo m.

(** [setState(v)] for each literal [v] of a list, in order. *)
Definition set_each (vs : list Value) (m : Hook) : Hook :=
  run (map (fun v => OpSet (Literal v)) vs) m.

(** The number of undo steps available: the position of [present] in the
    timeline. *)
Definition cursor (hs : HistoryState) : nat := List.length (past hs).

(** Each value of [vs], written in order after [cur] with [lastPast] the
    last entry of [past], passes both tests of [setState]: it differs from
    the value before it, and the entry before that one is not a truthy
    value equal to it. *)
Fixpoint distinct_writes (lastPast cur : Value) (vs : list Value) : bool :=
  match vs with
  | [] => true
  | v :: rest =>
      negb (isEqual v cur)
      && negb (truthy lastPast && isEqual lastPast v)
      && distinct_writes cur v rest
  end.

(** The values [JSON.stringify] writes as [null] inside an array. *)
Definition written_as_null (v : Value) : bool :=
  match v with
  | Undefined | Null | Num NaN | Num Infinity | Num NegInfinity => true
  | _ => false
  end.

(** construct("a"); set("b"); set("c"); undo() *)
Definition after_a_b_c_undo : Hook :=
  run [OpSet (Literal (Str "b")); OpSet (Literal (Str "c")); OpUndo]
      (useUndoRedo (Str "a")).

(* ================================================================== *)
(** ** Sanity checks of the model of values *)

Example isEqual_objects :
  isEqual (Object [("a", num 1); ("b", Array [Undefined; Str "x"])]%string)
          (Object [("a", num 1); ("b", Array [Null; Str "x"])]%string) = true.
Proof. reflexivity. Qed.

Example stringify_nested :
  stringify (Object [("k", Array [num (-12); Boolean false; Num NaN]);
                     ("u", Undefined)]%string)
  = Some (String "{" (String dquote ("k" ++ String dquote ":[-12,false,null]}")))%string.
Proof. reflexivity. Qed.

Example falsy_values :
  map truthy [num 0; Str EmptyString; Boolean false; Null; Undefined; Num NaN]
  = [false; false; false; false; false; false].
Proof. reflexivity. Qed.

Example truthy_values :
  map truthy [num 1; Str "0"; Boolean true; Array []; Object []; Num Infinity]
  = [true; true; true; true; true; true].
Proof. reflexivity. Qed.

(** construct(v); set(w); set(v), for a falsy and for a truthy [v]. *)
Example falsy_first_value_is_pushed_again :
  map (fun v => contents (run [OpSet (Literal (num 1)); OpSet (Literal v)]
                              (useUndoRedo v)))
      [num 0; Str EmptyString; Boolean false; Null]
  = [mkHistory [num 0; num 1] (num 0) [];
     mkHistory [Str EmptyString; num 1] (Str EmptyString) [];
     mkHistory [Boolean false; num 1] (Boolean false) [];
     mkHistory [Null; num 1] Null []].
Proof. reflexivity. Qed.

Example truthy_first_value_is_not_pushed_again :
  contents (run [OpSet (Literal (num 1)); OpSet (Literal (Str "a"))]
                (useUndoRedo (Str "a")))
  = mkHistory [Str "a"] (Str "a") [].
Proof. reflexivity. Qed.

(* ================================================================== *)
(** ** Equality is an equivalence *)

Lemma strict_eq_refl (x : option string) : strict_eq x x = true.
Proof. destruct x as [s|]; simpl; [apply String.eqb_refl | reflexivity]. Qed.

Lemma strict_eq_sym (x y : option string) : strict_eq x y = strict_eq y x.
Proof. destruct x, y; simpl; auto using String.eqb_sym. Qed.

Lemma isEqual_refl (a : Value) : isEqual a a = true.
Proof. apply strict_eq_refl. Qed.

Lemma isEqual_sym (a b : Value) : isEqual a b = isEqual b a.
Proof. apply strict_eq_sym. Qed.

(* ================================================================== *)
(** ** Arrays: the last element and the rest *)

Lemma len_snoc (l : list Value) (x : Value) : len (l ++ [x]) = (len l + 1)%Z.
Proof. unfold len. rewrite length_app. simpl. lia. Qed.

Lemma len_zero_iff (l : list Value) : (len l =? 0)%Z = true <-> l = [].
Proof.
  unfold len. destruct l as [|a l]; split; intro H;
    try reflexivity; discriminate.
Qed.

Lemma len_snoc_nonzero (l : list Value) (x : Value) :
  (len (l ++ [x]) =? 0)%Z = false.
Proof. rewrite len_snoc. apply Z.eqb_neq. unfold len. lia. Qed.

Lemma index_last_snoc (l : list Value) (x : Value) :
  index (l ++ [x]) (len (l ++ [x]) - 1) = x.
Proof.
  rewrite len_snoc. unfold index, len.
  replace (Z.of_nat (List.length l) + 1 - 1)%Z with (Z.of_nat (List.length l)) by lia.
  destruct (Z.ltb_spec (Z.of_nat (List.length l)) 0); [lia|].
  rewrite Nat2Z.id. apply nth_middle.
Qed.

Lemma index_last_nil : index [] (len [] - 1) = Undefined.
Proof. reflexivity. Qed.

Lemma slice_init_snoc (l : list Value) (x : Value) :
  slice (l ++ [x]) 0 (len (l ++ [x]) - 1) = l.
Proof.
  rewrite len_snoc. unfold slice, len. simpl.
  replace (Z.of_nat (List.length l) + 1 - 1)%Z with (Z.of_nat (List.length l)) by lia.
  rewrite Nat2Z.id, firstn_app, Nat.sub_diag, firstn_all. simpl.
  apply app_nil_r.
Qed.

Lemma snoc_cases (l : list Value) : l = [] \/ exists p x, l = p ++ [x].
Proof.
  destruct l as [|a l] using rev_ind; [now left | right; eauto].
Qed.

(* ================================================================== *)
(** ** What each operation returns *)

Local Ltac unfold_ops :=
  unfold undo, redo, setState, reset, markAsSaved, setHistory_with,
    setHistory_to, undo_updater, redo_updater, setState_updater,
    contents, state, ret, new in *.

Lemma undo_empty_past (m : Hook) :
  past (contents m) = [] -> undo m = m.
Proof.
  intro H. unfold_ops. rewrite H. destruct m; reflexivity.
Qed.

Lemma undo_snoc (m : Hook) (p : list Value) (x : Value) :
  past (contents m) = p ++ [x] ->
  undo m = mkHook (mkRef (built m)
                     (mkHistory p x (present (contents m) :: future (contents m))))
                  (S (built m)) (lastSavedState m) (view m).
Proof.
  intro H. unfold_ops. rewrite H.
  rewrite len_snoc_nonzero, index_last_snoc, slice_init_snoc. reflexivity.
Qed.

Lemma redo_empty_future (m : Hook) :
  future (contents m) = [] -> redo m = m.
Proof.
  intro H. unfold_ops. rewrite H. destruct m; reflexivity.
Qed.

Lemma redo_cons (m : Hook) (x : Value) (f : list Value) :
  future (contents m) = x :: f ->
  redo m = mkHook (mkRef (built m)
                     (mkHistory (past (contents m) ++ [present (contents m)]) x f))
                  (S (built m)) (lastSavedState m) (view m).
Proof.
  intro H. unfold_ops. rewrite H. reflexivity.
Qed.

Lemma setState_same (value : SetArg) (m : Hook) :
  isEqual (nextValue_of value (contents m)) (present (contents m)) = true ->
  setState value m = m.
Proof.
  intro H. unfold_ops. rewrite H. destruct m; reflexivity.
Qed.

Lemma setState_dedup (value : SetArg) (m : Hook) :
  takes_dedup_branch value (contents m) = true ->
  setState value m
  = mkHook (mkRef (built m)
              (mkHistory (past (contents m)) (nextValue_of value (contents m))
                         (future (contents m))))
           (S (built m)) (lastSavedState m) (view m).
Proof.
  unfold takes_dedup_branch. intro H.
  apply andb_true_iff in H. destruct H as [Hne Hd].
  apply negb_true_iff in Hne.
  unfold_ops. rewrite Hne, Hd. reflexivity.
Qed.

Lemma setState_push (value : SetArg) (m : Hook) :
  isEqual (nextValue_of value (contents m)) (present (contents m)) = false ->
  takes_dedup_branch value (contents m) = false ->
  setState value m
  = mkHook (mkRef (built m)
              (mkHistory (past (contents m) ++ [present (contents m)])
                         (nextValue_of value (contents m)) []))
           (S (built m)) (lastSavedState m) (view m).
Proof.
  unfold takes_dedup_branch. intros Hne H.
  rewrite Hne in H. simpl in H.
  unfold_ops. rewrite Hne, H. reflexivity.
Qed.

(** The three branches of [setState] are told apart by two tests. *)
Lemma setState_cases (value : SetArg) (m : Hook) :
  (isEqual (nextValue_of value (contents m)) (present (contents m)) = true
   /\ setState value m = m)
  \/ (takes_dedup_branch value (contents m) = true
      /\ contents (setState value m)
         = mkHistory (past (contents m)) (nextValue_of value (contents m))
                     (future (contents m)))
  \/ (isEqual (nextValue_of value (contents m)) (present (contents m)) = false
      /\ takes_dedup_branch value (contents m) = false
      /\ contents (setState value m)
         = mkHistory (past (contents m) ++ [present (contents m)])
                     (nextValue_of value (contents m)) []).
Proof.
  destruct (isEqual (nextValue_of value (contents m)) (present (contents m)))
    eqn:He.
  - left. split; [reflexivity | now apply setState_same].
  - destruct (takes_dedup_branch value (contents m)) eqn:Hd.
    + right; left. split; [reflexivity|]. now rewrite setState_dedup.
    + right; right. repeat split. now rewrite setState_push.
Qed.

Lemma equals_last_past_snoc (v x : Value) (p : list Value) :
  equals_last_past v (p ++ [x]) = isEqual x v.
Proof.
  unfold equals_last_past. now rewrite len_snoc_nonzero, index_last_snoc.
Qed.

(** The second branch is taken on undo-equivalent writes only. *)
Lemma takes_dedup_branch_undo_equivalent (value : SetArg) (hs : HistoryState) :
  undo_equivalent_write value hs = false ->
  takes_dedup_branch value hs = false.
Proof.
  unfold undo_equivalent_write, takes_dedup_branch, equals_last_past.
  destruct (isEqual (nextValue_of value hs) (present hs)); [reflexivity|].
  simpl. destruct (snoc_cases (past hs)) as [E|[p [x E]]]; rewrite E.
  - reflexivity.
  - rewrite len_snoc_nonzero. simpl. intros ->. apply andb_false_r.
Qed.

(** A truthy last entry of [past] equal to the new value: the frame is not
    pushed, [past] and [future] stay. *)
Lemma setState_truthy_lastPast (value : SetArg) (m : Hook)
      (p : list Value) (v : Value) :
  past (contents m) = p ++ [v] ->
  truthy v = true ->
  isEqual (nextValue_of value (contents m)) (present (contents m)) = false ->
  isEqual v (nextValue_of value (contents m)) = true ->
  contents (setState value m)
  = mkHistory (past (contents m)) (nextValue_of value (contents m))
              (future (contents m)).
Proof.
  intros Hp Ht Hne He. rewrite setState_dedup; [reflexivity|].
  unfold takes_dedup_branch. rewrite Hp, index_last_snoc, Hne, Ht, He.
  reflexivity.
Qed.

Lemma useUndoRedo_well_formed (init : Value) : well_formed (useUndoRedo init).
Proof. unfold well_formed. simpl. lia. Qed.

Lemma step_well_formed (m : Hook) (op : Op) :
  well_formed m -> well_formed (step m op).
Proof.
  unfold well_formed. intro H. destruct op as [value| | |newState|]; simpl.
  - destruct (setState_cases value m) as [[_ E]|[[Hd _]|[Hne [Hd _]]]].
    + now rewrite E.
    + rewrite setState_dedup by assumption. simpl. lia.
    + rewrite setState_push by assumption. simpl. lia.
  - destruct (snoc_cases (past (contents m))) as [E|[p [x E]]].
    + now rewrite undo_empty_past.
    + rewrite (undo_snoc m p x E). simpl. lia.
  - destruct (future (contents m)) as [|x f] eqn:E.
    + now rewrite redo_empty_future.
    + rewrite (redo_cons m x f E). simpl. lia.
  - lia.
  - exact H.
Qed.

Lemma setState_changed_is_new_object (value : SetArg) (m : Hook) :
  well_formed m ->
  isEqual (nextValue_of value (contents m)) (present (contents m)) = false ->
  ident (history (setState value m)) <> ident (history m).
Proof.
  unfold well_formed. intros Hw Hne.
  destruct (takes_dedup_branch value (contents m)) eqn:Hd.
  - rewrite setState_dedup by assumption. simpl. lia.
  - rewrite setState_push by assumption. simpl. lia.
Qed.

(* ================================================================== *)
(** ** The deduplication invariant along the timeline *)

Lemma no_adjacent_equal_cons (x : Value) (r : list Value) :
  no_adjacent_equal (x :: r)
  = match r with
    | [] => true
    | f :: _ => negb (isEqual x f)
    end && no_adjacent_equal r.
Proof. destruct r; reflexivity. Qed.

Lemma no_adjacent_equal_app (l : list Value) (x : Value) (r : list Value) :
  no_adjacent_equal (l ++ x :: r)
  = no_adjacent_equal l
    && match l with
       | [] => true
       | _ :: _ => negb (isEqual (last l Undefined) x)
       end
    && no_adjacent_equal (x :: r).
Proof.
  induction l as [|a l IH]; [reflexivity|].
  destruct l as [|b l].
  - reflexivity.
  - change (no_adjacent_equal ((a :: b :: l) ++ x :: r))
      with (negb (isEqual a b) && no_adjacent_equal ((b :: l) ++ x :: r)).
    rewrite IH.
    change (no_adjacent_equal (a :: b :: l))
      with (negb (isEqual a b) && no_adjacent_equal (b :: l)).
    change (last (a :: b :: l) Undefined) with (last (b :: l) Undefined).
    now rewrite !andb_assoc.
Qed.

Lemma deduplicated_timeline (hs : HistoryState) :
  deduplicated hs = no_adjacent_equal (timeline hs).
Proof.
  unfold deduplicated, timeline.
  rewrite no_adjacent_equal_app, no_adjacent_equal_cons.
  destruct (no_adjacent_equal (past hs)), (no_adjacent_equal (future hs)),
    (past hs), (future hs); simpl; try reflexivity;
    try (now rewrite ?andb_true_r, ?andb_false_r).
Qed.

Lemma no_adjacent_equal_prefix (l : list Value) (x : Value) (r : list Value) :
  no_adjacent_equal (l ++ x :: r) = true -> no_adjacent_equal (l ++ [x]) = true.
Proof.
  rewrite !no_adjacent_equal_app. intro H.
  apply andb_true_iff in H. destruct H as [H _]. rewrite H. reflexivity.
Qed.

Lemma no_adjacent_equal_snoc (l : list Value) (x y : Value) :
  no_adjacent_equal (l ++ [x]) = true ->
  isEqual y x = false ->
  no_adjacent_equal ((l ++ [x]) ++ [y]) = true.
Proof.
  intros H Hne. rewrite no_adjacent_equal_app, H, last_last.
  rewrite isEqual_sym, Hne. destruct (l ++ [x]); reflexivity.
Qed.

Lemma undo_timeline (m : Hook) :
  timeline (contents (undo m)) = timeline (contents m).
Proof.
  destruct (snoc_cases (past (contents m))) as [E|[p [x E]]].
  - now rewrite undo_empty_past.
  - rewrite (undo_snoc m p x E). unfold timeline, contents at 1. simpl.
    rewrite E, <- app_assoc. reflexivity.
Qed.

Lemma redo_timeline (m : Hook) :
  timeline (contents (redo m)) = timeline (contents m).
Proof.
  destruct (future (contents m)) as [|x f] eqn:E.
  - now rewrite redo_empty_future.
  - rewrite (redo_cons m x f E). unfold timeline, contents at 1. simpl.
    rewrite E, <- app_assoc. reflexivity.
Qed.

Lemma step_preserves_deduplicated (m : Hook) (op : Op) :
  deduplicated (contents m) = true ->
  op_rewrites_last_past op m = false ->
  deduplicated (contents (step m op)) = true.
Proof.
  rewrite !deduplicated_timeline. intros Hinv Hd.
  destruct op as [value| | |newState|]; simpl in *.
  - apply takes_dedup_branch_undo_equivalent in Hd.
    destruct (setState_cases value m) as [[_ E]|[[Hd' _]|[Hne [_ E]]]].
    + now rewrite E.
    + congruence.
    + rewrite E. unfold timeline in *. simpl.
      apply no_adjacent_equal_snoc; [|exact Hne].
      eapply no_adjacent_equal_prefix; exact Hinv.
  - now rewrite undo_timeline.
  - now rewrite redo_timeline.
  - reflexivity.
  - exact Hinv.
Qed.

Lemma run_preserves_deduplicated (ops : list Op) (m : Hook) :
  deduplicated (contents m) = true ->
  dedup_free ops m = true ->
  deduplicated (contents (run ops m)) = true.
Proof.
  revert m. induction ops as [|op ops IH]; intros m Hinv Hfree; [exact Hinv|].
  simpl in Hfree. apply andb_true_iff in Hfree. destruct Hfree as [Hop Hrest].
  apply negb_true_iff in Hop. simpl. apply IH; [|exact Hrest].
  now apply step_preserves_deduplicated.
Qed.

(* ================================================================== *)
(** ** Undo followed by redo *)

Lemma undo_redo_contents (m : Hook) :
  past (contents m) <> [] \/ future (contents m) = [] ->
  contents (redo (undo m)) = contents m.
Proof.
  intro H. destruct (snoc_cases (past (contents m))) as [E|[p [x E]]].
  - destruct H as [H|H]; [contradiction|].
    rewrite (undo_empty_past m E). now rewrite redo_empty_future.
  - rewrite (undo_snoc m p x E).
    rewrite (redo_cons _ (present (contents m)) (future (contents m)))
      by reflexivity.
    unfold contents in *. simpl. rewrite <- E.
    destruct (deref (history m)); reflexivity.
Qed.

Lemma setState_keeps_empty_future (value : SetArg) (m : Hook) :
  future (contents m) = [] -> future (contents (setState value m)) = [].
Proof.
  intro H.
  destruct (setState_cases value m) as [[_ E]|[[_ E]|[_ [_ E]]]];
    rewrite E; [exact H | exact H | reflexivity].
Qed.

Lemma sets_keep_empty_future (values : list SetArg) (m : Hook) :
  future (contents m) = [] ->
  future (contents (fold_left (fun m' v => setState v m') values m)) = [].
Proof.
  revert m. induction values as [|v values IH]; intros m H; [exact H|].
  simpl. apply IH. now apply setState_keeps_empty_future.
Qed.

(* ================================================================== *)
(** ** The properties of the operations *)

(** C1, on the input where it fails.  After construct(0); set(1); set(2);
    undo() the history is past=[0], present=1, future=[2].  set(0) gives a
    value that differs from present and equals the last entry of past, yet
    the frame is pushed and future is cleared: the last entry, 0, is falsy,
    so [lastPast && ...] is false before the comparison is made. *)
Theorem setState_falsy_lastPast_pushes_frame :
  contents after_0_1_2_undo = mkHistory [num 0] (num 1) [num 2]
  /\ isEqual (num 0) (present (contents after_0_1_2_undo)) = false
  /\ isEqual (last (past (contents after_0_1_2_undo)) Undefined) (num 0) = true
  /\ contents (setState (Literal (num 0)) after_0_1_2_undo)
     = mkHistory [num 0; num 1] (num 0) [].
Proof. repeat split. Qed.

(** C2, counterexample.  construct(1); set(2); set(1): the second set takes
    the deduplication branch and leaves past=[1], present=1, so the last
    entry of past equals present. *)
Lemma dedup_branch_breaks_invariant :
  contents after_1_2_1 = mkHistory [num 1] (num 1) []
  /\ deduplicated (contents after_1_2_1) = false.
Proof. split; reflexivity. Qed.

(** C2, amended.  Along every sequence of set, undo, redo, reset (and
    markAsSaved) from construction in which no set writes a value that
    differs from present and equals the last entry of past, neither past nor
    future has two adjacent equal elements and the neighbours of present
    differ from it; and every operation other than such a set preserves this
    invariant. *)
Theorem deduplicated_without_undo_equivalent_writes
        (init : Value) (ops : list Op) (m : Hook) (op : Op) :
  (dedup_free ops (useUndoRedo init) = true ->
   deduplicated (contents (run ops (useUndoRedo init))) = true)
  /\ (deduplicated (contents m) = true ->
      op_rewrites_last_past op m = false ->
      deduplicated (contents (step m op)) = true).
Proof.
  split.
  - apply run_preserves_deduplicated. reflexivity.
  - apply step_preserves_deduplicated.
Qed.

Lemma deduplicated_without_undo_equivalent_writes_witness :
  deduplicated (contents (run scenario (useUndoRedo (num 0)))) = true
  /\ deduplicated
       (contents (step after_0_1_2_undo (OpSet (Literal (num 7))))) = true.
Proof.
  split.
  - apply (proj1 (deduplicated_without_undo_equivalent_writes
                    (num 0) scenario after_0_1_2_undo
                    (OpSet (Literal (num 7))))).
    reflexivity.
  - apply (proj2 (deduplicated_without_undo_equivalent_writes
                    (num 0) scenario after_0_1_2_undo
                    (OpSet (Literal (num 7))))); reflexivity.
Defined.

(** C3, counterexample.  construct(1); set(2); set(3); undo() gives
    past=[1], present=2, future=[3].  set(1) differs from present, but it
    equals the truthy last entry of past: present is replaced and future
    stays [3]. *)
Lemma set_dedup_branch_keeps_future :
  contents after_1_2_3_undo = mkHistory [num 1] (num 2) [num 3]
  /\ isEqual (num 1) (present (contents after_1_2_3_undo)) = false
  /\ contents (setState (Literal (num 1)) after_1_2_3_undo)
     = mkHistory [num 1] (num 1) [num 3]
  /\ future (contents (setState (Literal (num 1)) after_1_2_3_undo)) <> [].
Proof. repeat split. discriminate. Qed.

(** C3, amended.  With a non-empty future, a set whose new value differs
    from present and is not equal to the last entry of past appends present
    to past, makes the new value present and leaves future empty. *)
Theorem set_push_clears_future (value : SetArg) (m : Hook) :
  future (contents m) <> [] ->
  isEqual (nextValue_of value (contents m)) (present (contents m)) = false ->
  equals_last_past (nextValue_of value (contents m)) (past (contents m))
  = false ->
  contents (setState value m)
  = mkHistory (past (contents m) ++ [present (contents m)])
              (nextValue_of value (contents m)) []
  /\ future (contents (setState value m)) = [].
Proof.
  intros _ Hne Hl. rewrite setState_push; [split; reflexivity | exact Hne |].
  apply takes_dedup_branch_undo_equivalent.
  unfold undo_equivalent_write. rewrite Hl. apply andb_false_r.
Qed.

Lemma set_push_clears_future_witness :
  contents (setState (Literal (num 5)) after_0_1_2_undo)
  = mkHistory [num 0; num 1] (num 5) []
  /\ future (contents (setState (Literal (num 5)) after_0_1_2_undo)) = [].
Proof.
  apply (set_push_clears_future (Literal (num 5)) after_0_1_2_undo).
  - simpl. discriminate.
  - reflexivity.
  - reflexivity.
Defined.

(** C4.  After any number of set calls on a freshly constructed manager,
    undo followed by redo gives back exactly the same past, present and
    future. *)
Theorem undo_redo_inverse_after_sets (init : Value) (values : list SetArg) :
  let m := fold_left (fun m' v => setState v m') values (useUndoRedo init) in
  past (contents (redo (undo m))) = past (contents m)
  /\ present (contents (redo (undo m))) = present (contents m)
  /\ future (contents (redo (undo m))) = future (contents m).
Proof.
  intro m.
  assert (E : contents (redo (undo m)) = contents m).
  { apply undo_redo_contents. right. apply sets_keep_empty_future.
    reflexivity. }
  rewrite E. repeat split.
Qed.

(** C5.  From construct(0), the sequence set(1); set(2); undo(); undo();
    redo(); set(5) passes through exactly the six states listed. *)
Theorem end_to_end_scenario :
  let m0 := useUndoRedo (num 0) in
  let m1 := setState (Literal (num 1)) m0 in
  let m2 := setState (Literal (num 2)) m1 in
  let m3 := undo m2 in
  let m4 := undo m3 in
  let m5 := redo m4 in
  let m6 := setState (Literal (num 5)) m5 in
  contents m1 = mkHistory [num 0] (num 1) []
  /\ contents m2 = mkHistory [num 0; num 1] (num 2) []
  /\ contents m3 = mkHistory [num 0] (num 1) [num 2]
  /\ contents m4 = mkHistory [] (num 0) [num 1; num 2]
  /\ contents m5 = mkHistory [num 0] (num 1) [num 2]
  /\ contents m6 = mkHistory [num 0; num 1] (num 5) [].
Proof. repeat split. Qed.

(** C6.  A set whose new value is structurally equal to present changes
    nothing: past, present and future keep their values, the stored
    history is the same object as before, and so is the saved marker. *)
Theorem set_equal_present_is_noop (value : SetArg) (m : Hook) :
  isEqual (nextValue_of value (contents m)) (present (contents m)) = true ->
  contents (setState value m) = contents m
  /\ ident (history (setState value m)) = ident (history m)
  /\ setState value m = m.
Proof.
  intro H. rewrite (setState_same value m H). repeat split.
Qed.

Lemma set_equal_present_is_noop_witness :
  contents (setState (Updater (fun prev => prev)) after_0_1_2_undo)
  = contents after_0_1_2_undo
  /\ ident (history (setState (Updater (fun prev => prev)) after_0_1_2_undo))
     = ident (history after_0_1_2_undo)
  /\ setState (Updater (fun prev => prev)) after_0_1_2_undo = after_0_1_2_undo.
Proof.
  apply (set_equal_present_is_noop (Updater (fun prev => prev))
                                   after_0_1_2_undo).
  reflexivity.
Defined.

(** C7.  undo with an empty past and redo with an empty future return the
    state they were given: past, present, future, the stored object and the
    saved marker.  Both are total functions with no failing outcome. *)
Theorem undo_redo_boundary_noop (m : Hook) :
  (past (contents m) = [] -> undo m = m)
  /\ (future (contents m) = [] -> redo m = m).
Proof.
  split; [apply undo_empty_past | apply redo_empty_future].
Qed.

Lemma undo_redo_boundary_noop_witness :
  undo (useUndoRedo (Str "draft")) = useUndoRedo (Str "draft")
  /\ redo (useUndoRedo (Str "draft")) = useUndoRedo (Str "draft").
Proof.
  split.
  - apply (proj1 (undo_redo_boundary_noop (useUndoRedo (Str "draft")))).
    reflexivity.
  - apply (proj2 (undo_redo_boundary_noop (useUndoRedo (Str "draft")))).
    reflexivity.
Defined.

(** C8.  reset(X) gives past=[], present=X, future=[], makes X the saved
    marker, and hasUnsavedChanges is false right after, whatever the
    history and the saved marker were. *)
Theorem reset_yields_clean_history (newState : Value) (m : Hook) :
  contents (reset newState m) = mkHistory [] newState []
  /\ lastSavedState (reset newState m) = newState
  /\ hasUnsavedChanges (reset newState m) = false.
Proof.
  repeat split. unfold hasUnsavedChanges. simpl.
  now rewrite isEqual_refl.
Qed.

(** C9, counterexample.  construct(0), then setState(1) and markAsSaved()
    in one handler: the callback still sees the present of the render it
    was created in, and saves 0 while the stored present is 1. *)
Lemma markAsSaved_saves_rendered_present :
  present (contents after_0_set_1_unrendered) = num 1
  /\ lastSavedState (markAsSaved after_0_set_1_unrendered) = num 0
  /\ lastSavedState (markAsSaved after_0_set_1_unrendered)
     <> present (contents after_0_set_1_unrendered).
Proof. repeat split. discriminate. Qed.

(** C9, amended.  set, undo and redo leave the saved marker as it is;
    markAsSaved makes it the present of the history the last render read,
    which is the current present when the hook is in step with that render
    (no set, undo, redo or reset since), in particular when markAsSaved is
    called right after a render; it leaves the history (the same object, so
    past, present and future) as it is. *)
Theorem saved_marker_frame (m : Hook) (value : SetArg) :
  lastSavedState (setState value m) = lastSavedState m
  /\ lastSavedState (undo m) = lastSavedState m
  /\ lastSavedState (redo m) = lastSavedState m
  /\ lastSavedState (markAsSaved m) = present (deref (seen (view m)))
  /\ history (markAsSaved m) = history m
  /\ (rendered m -> lastSavedState (markAsSaved m) = present (contents m))
  /\ lastSavedState (markAsSaved (render m)) = present (contents m).
Proof.
  split; [|split; [|split; [|split; [|split; [|split]]]]].
  - unfold setState, setHistory_with.
    now destruct (setState_updater value (history m) (built m)).
  - unfold undo, setHistory_with.
    now destruct (undo_updater (history m) (built m)).
  - unfold redo, setHistory_with.
    now destruct (redo_updater (history m) (built m)).
  - reflexivity.
  - reflexivity.
  - unfold rendered, contents. intro R. simpl. now rewrite R.
  - reflexivity.
Qed.

Lemma saved_marker_frame_witness :
  lastSavedState
    (markAsSaved (event [OpSet (Literal (num 1))] (useUndoRedo (num 0))))
  = present (contents (event [OpSet (Literal (num 1))] (useUndoRedo (num 0)))).
Proof.
  apply (proj1 (proj2 (proj2 (proj2 (proj2 (proj2
          (saved_marker_frame
             (event [OpSet (Literal (num 1))] (useUndoRedo (num 0)))
             (Literal (num 1))))))))).
  reflexivity.
Defined.

(** C10.  When the last entry of past is falsy, a set whose new value
    differs from present never takes the deduplication branch, also when
    that entry is equal to the new value: present is appended to past, the
    new value becomes present and future is cleared. *)
Theorem set_falsy_lastPast_never_dedups
        (value : SetArg) (m : Hook) (p : list Value) (v : Value) :
  past (contents m) = p ++ [v] ->
  truthy v = false ->
  isEqual (nextValue_of value (contents m)) (present (contents m)) = false ->
  takes_dedup_branch value (contents m) = false
  /\ contents (setState value m)
     = mkHistory (past (contents m) ++ [present (contents m)])
                 (nextValue_of value (contents m)) [].
Proof.
  intros Hp Hf Hne.
  assert (Hd : takes_dedup_branch value (contents m) = false).
  { unfold takes_dedup_branch. rewrite Hp, index_last_snoc, Hf.
    now rewrite andb_false_r. }
  split; [exact Hd|]. now rewrite setState_push.
Qed.

Lemma set_falsy_lastPast_never_dedups_witness :
  takes_dedup_branch (Literal (num 0)) (contents after_0_1_2_undo) = false
  /\ contents (setState (Literal (num 0)) after_0_1_2_undo)
     = mkHistory ([num 0] ++ [num 1]) (num 0) [].
Proof.
  apply (set_falsy_lastPast_never_dedups
           (Literal (num 0)) after_0_1_2_undo [] (num 0));
    reflexivity.
Defined.

(* ================================================================== *)
(** ** Further properties of the hook *)

(** *** Equality *)

Lemma strict_eq_trans (x y z : option string) :
  strict_eq x y = true -> strict_eq y z = true -> strict_eq x z = true.
Proof.
  destruct x as [s|], y as [t|], z as [u|]; simpl; try discriminate; auto.
  intros H1 H2. apply String.eqb_eq in H1, H2. subst. apply String.eqb_refl.
Qed.

Lemma isEqual_trans (a b c : Value) :
  isEqual a b = true -> isEqual b c = true -> isEqual a c = true.
Proof. apply strict_eq_trans. Qed.

(** X1.  [isEqual] is an equivalence on values: reflexive, symmetric and
    transitive. *)
Theorem isEqual_equivalence (a b c : Value) :
  isEqual a a = true
  /\ isEqual a b = isEqual b a
  /\ (isEqual a b = true -> isEqual b c = true -> isEqual a c = true).
Proof.
  split; [apply isEqual_refl | split; [apply isEqual_sym | apply isEqual_trans]].
Qed.

Lemma isEqual_equivalence_witness :
  isEqual (Array [Undefined]) (Array [Num NaN]) = true.
Proof.
  apply (proj2 (proj2 (isEqual_equivalence
                         (Array [Undefined]) (Array [Null]) (Array [Num NaN]))));
    reflexivity.
Defined.

Lemma stringify_written_as_null (v : Value) :
  written_as_null v = true ->
  match stringify v with Some s => s | None => "null"%string end = "null"%string.
Proof.
  destruct v as [| |b|n|s|l|ps]; try discriminate; try reflexivity.
  destruct n; try discriminate; reflexivity.
Qed.

Lemma isEqual_array_null_like (l1 l2 : list Value) (x y : Value) :
  written_as_null x = true -> written_as_null y = true ->
  isEqual (Array (l1 ++ x :: l2)) (Array (l1 ++ y :: l2)) = true.
Proof.
  intros Hx Hy. unfold isEqual. simpl stringify.
  rewrite !map_app. simpl map.
  rewrite (stringify_written_as_null x Hx), (stringify_written_as_null y Hy).
  apply strict_eq_refl.
Qed.

Lemma isEqual_object_undefined_property
      (p1 p2 : list (string * Value)) (k : string) :
  isEqual (Object (p1 ++ (k, Undefined) :: p2)) (Object (p1 ++ p2)) = true.
Proof.
  unfold isEqual. simpl stringify.
  rewrite !flat_map_app. simpl flat_map.
  apply strict_eq_refl.
Qed.

(** X2.  [isEqual] is coarser than equality of values: inside an array it
    does not tell undefined, null, NaN and the infinities apart, and it does
    not see a property whose value is undefined.  A set that changes present
    in one of these ways only is dropped: the state stays as it is. *)
Theorem set_ignores_changes_invisible_to_stringify
        (m : Hook) (l1 l2 : list Value) (x y : Value)
        (p1 p2 : list (string * Value)) (k : string) :
  (written_as_null x = true -> written_as_null y = true ->
   present (contents m) = Array (l1 ++ x :: l2) ->
   setState (Literal (Array (l1 ++ y :: l2))) m = m)
  /\ (present (contents m) = Object (p1 ++ p2) ->
      setState (Literal (Object (p1 ++ (k, Undefined) :: p2))) m = m).
Proof.
  split.
  - intros Hx Hy Hp. apply setState_same. simpl. rewrite Hp.
    now apply isEqual_array_null_like.
  - intros Hp. apply setState_same. simpl. rewrite Hp.
    apply isEqual_object_undefined_property.
Qed.

Lemma set_ignores_changes_invisible_to_stringify_witness :
  setState (Literal (Array [num 1; Num NaN; num 3]))
           (useUndoRedo (Array [num 1; Null; num 3]))
  = useUndoRedo (Array [num 1; Null; num 3])
  /\ setState (Literal (Object [("a", num 1); ("b", Undefined)]%string))
              (useUndoRedo (Object [("a", num 1)]%string))
     = useUndoRedo (Object [("a", num 1)]%string).
Proof.
  split.
  - apply (proj1 (set_ignores_changes_invisible_to_stringify
                    (useUndoRedo (Array [num 1; Null; num 3]))
                    [num 1] [num 3] Null (Num NaN) [] [] EmptyString));
      reflexivity.
  - apply (proj2 (set_ignores_changes_invisible_to_stringify
                    (useUndoRedo (Object [("a", num 1)]%string))
                    [] [] Null Null [("a", num 1)]%string [] "b"%string)).
    reflexivity.
Defined.

(** *** The timeline and the cursor *)

Lemma timeline_length (hs : HistoryState) :
  List.length (timeline hs) = S (cursor hs + List.length (future hs)).
Proof. unfold timeline, cursor. rewrite length_app. simpl. lia. Qed.

(** A history is its timeline cut at the cursor. *)
Lemma history_of_timeline (h1 h2 : HistoryState) :
  timeline h1 = timeline h2 -> cursor h1 = cursor h2 -> h1 = h2.
Proof.
  destruct h1 as [p1 c1 f1], h2 as [p2 c2 f2]. unfold timeline, cursor. simpl.
  intros Ht Hc.
  assert (Hp : p1 = p2).
  { apply (f_equal (firstn (List.length p1))) in Ht.
    rewrite firstn_app, Nat.sub_diag, firstn_all in Ht. simpl in Ht.
    rewrite Hc, firstn_app, Nat.sub_diag, firstn_all in Ht. simpl in Ht.
    now rewrite !app_nil_r in Ht. }
  subst p2. apply app_inv_head in Ht. now inversion Ht.
Qed.

Lemma undo_cursor (m : Hook) :
  cursor (contents (undo m)) = cursor (contents m) - 1.
Proof.
  unfold cursor. destruct (snoc_cases (past (contents m))) as [E|[p [x E]]].
  - rewrite undo_empty_past by assumption. rewrite E. reflexivity.
  - rewrite (undo_snoc m p x E), E, length_app. unfold contents. simpl. lia.
Qed.

Lemma redo_cursor (m : Hook) :
  cursor (contents (redo m))
  = Nat.min (S (cursor (contents m)))
            (cursor (contents m) + List.length (future (contents m))).
Proof.
  unfold cursor. destruct (future (contents m)) as [|x f] eqn:E.
  - rewrite redo_empty_future by assumption.
    change (List.length (@nil Value)) with 0. lia.
  - rewrite (redo_cons m x f E). unfold contents at 1.
    cbn [past deref history]. rewrite length_app. cbn [List.length]. lia.
Qed.

Lemma undo_times_timeline (k : nat) (m : Hook) :
  timeline (contents (undo_times k m)) = timeline (contents m).
Proof.
  induction k as [|k IH]; [reflexivity|].
  unfold undo_times in *. simpl. now rewrite undo_timeline.
Qed.

Lemma redo_times_timeline (k : nat) (m : Hook) :
  timeline (contents (redo_times k m)) = timeline (contents m).
Proof.
  induction k as [|k IH]; [reflexivity|].
  unfold redo_times in *. simpl. now rewrite redo_timeline.
Qed.

Lemma undo_times_cursor (k : nat) (m : Hook) :
  cursor (contents (undo_times k m)) = cursor (contents m) - k.
Proof.
  induction k as [|k IH]; [unfold undo_times; simpl; lia|].
  unfold undo_times in *. simpl. rewrite undo_cursor, IH. lia.
Qed.

Lemma redo_times_cursor (k : nat) (m : Hook) :
  cursor (contents (redo_times k m))
  = Nat.min (cursor (contents m) + k)
            (cursor (contents m) + List.length (future (contents m))).
Proof.
  induction k as [|k IH]; [unfold redo_times; simpl; lia|].
  assert (L : List.length (timeline (contents (redo_times k m)))
              = List.length (timeline (contents m)))
    by now rewrite redo_times_timeline.
  rewrite !timeline_length in L.
  unfold redo_times in *. simpl. rewrite redo_cursor. lia.
Qed.

(** X3.  undo and redo, called any number of times, only move present along
    the timeline past ++ [present] ++ future: no value is lost, added or
    reordered.  k undos move it k places back, stopping at the oldest value;
    k redos move it k places forward, stopping at the newest. *)
Theorem undo_redo_move_along_timeline (k : nat) (m : Hook) :
  timeline (contents (undo_times k m)) = timeline (contents m)
  /\ cursor (contents (undo_times k m)) = cursor (contents m) - k
  /\ timeline (contents (redo_times k m)) = timeline (contents m)
  /\ cursor (contents (redo_times k m))
     = Nat.min (cursor (contents m) + k)
               (cursor (contents m) + List.length (future (contents m))).
Proof.
  repeat split.
  - apply undo_times_timeline.
  - apply undo_times_cursor.
  - apply redo_times_timeline.
  - apply redo_times_cursor.
Qed.

(** X4.  k undos followed by k redos give back past, present and future
    when at least k entries are in past; k redos followed by k undos do when
    at least k entries are in future. *)
Theorem undo_redo_times_inverse (k : nat) (m : Hook) :
  (k <= List.length (past (contents m)) ->
   contents (redo_times k (undo_times k m)) = contents m)
  /\ (k <= List.length (future (contents m)) ->
      contents (undo_times k (redo_times k m)) = contents m).
Proof.
  split; intro Hk; apply history_of_timeline.
  - now rewrite redo_times_timeline, undo_times_timeline.
  - assert (L : List.length (timeline (contents (undo_times k m)))
                = List.length (timeline (contents m)))
      by now rewrite undo_times_timeline.
    rewrite !timeline_length in L.
    rewrite redo_times_cursor. pose proof (undo_times_cursor k m) as C.
    unfold cursor in *. lia.
  - now rewrite undo_times_timeline, redo_times_timeline.
  - rewrite undo_times_cursor, redo_times_cursor. unfold cursor. lia.
Qed.

Lemma undo_redo_times_inverse_witness :
  contents (redo_times 2 (undo_times 2 (run scenario (useUndoRedo (num 0)))))
  = contents (run scenario (useUndoRedo (num 0)))
  /\ contents (undo_times 1 (redo_times 1 after_0_1_2_undo))
     = contents after_0_1_2_undo.
Proof.
  split.
  - apply (proj1 (undo_redo_times_inverse
                    2 (run scenario (useUndoRedo (num 0))))).
    simpl. lia.
  - apply (proj2 (undo_redo_times_inverse 1 after_0_1_2_undo)).
    simpl. lia.
Defined.

Lemma canUndo_true_iff (m : Hook) :
  canUndo m = true <-> past (contents m) <> [].
Proof.
  unfold canUndo, contents, len.
  destruct (past (deref (history m))) as [|a l]; simpl; split; intro H;
    try discriminate; try reflexivity; try congruence.
Qed.

Lemma canRedo_true_iff (m : Hook) :
  canRedo m = true <-> future (contents m) <> [].
Proof.
  unfold canRedo, contents, len.
  destruct (future (deref (history m))) as [|a l]; simpl; split; intro H;
    try discriminate; try reflexivity; try congruence.
Qed.

(** X5.  canUndo is exactly the condition under which undo changes the
    history, and canRedo the one under which redo does. *)
Theorem canUndo_canRedo_exact (m : Hook) :
  (canUndo m = true <-> contents (undo m) <> contents m)
  /\ (canRedo m = true <-> contents (redo m) <> contents m).
Proof.
  split.
  - rewrite canUndo_true_iff. split.
    + intros Hp E. apply (f_equal cursor) in E. rewrite undo_cursor in E.
      unfold cursor in E. destruct (past (contents m)); [congruence|].
      simpl in E. lia.
    + intros Hne Hp. apply Hne. now rewrite undo_empty_past.
  - rewrite canRedo_true_iff. split.
    + intros Hf E. apply (f_equal cursor) in E. rewrite redo_cursor in E.
      unfold cursor in E. destruct (future (contents m)); [congruence|].
      cbn [List.length] in E. lia.
    + intros Hne Hf. apply Hne. now rewrite redo_empty_future.
Qed.

(** X6.  An undo that had something to undo can be redone, and a redo that
    had something to redo can be undone. *)
Theorem undo_enables_redo (m : Hook) :
  (canUndo m = true -> canRedo (undo m) = true)
  /\ (canRedo m = true -> canUndo (redo m) = true).
Proof.
  split; intro H.
  - apply canUndo_true_iff in H.
    destruct (snoc_cases (past (contents m))) as [E|[p [x E]]];
      [contradiction|].
    rewrite (undo_snoc m p x E). reflexivity.
  - apply canRedo_true_iff in H.
    destruct (future (contents m)) as [|x f] eqn:E; [contradiction|].
    rewrite (redo_cons m x f E). apply canUndo_true_iff.
    unfold contents at 1. simpl. now destruct (past (contents m)).
Qed.

Lemma undo_enables_redo_witness :
  canRedo (undo after_1_2_1) = true
  /\ canUndo (redo after_0_1_2_undo) = true.
Proof.
  split.
  - apply (proj1 (undo_enables_redo after_1_2_1)). reflexivity.
  - apply (proj2 (undo_enables_redo after_0_1_2_undo)). reflexivity.
Defined.

Lemma canUndo_canRedo_exact_witness :
  contents (undo after_1_2_1) <> contents after_1_2_1
  /\ contents (redo after_0_1_2_undo) <> contents after_0_1_2_undo.
Proof.
  split.
  - apply (proj1 (proj1 (canUndo_canRedo_exact after_1_2_1))). reflexivity.
  - apply (proj1 (proj2 (canUndo_canRedo_exact after_0_1_2_undo))).
    reflexivity.
Defined.

(** *** setState and what follows it *)

Lemma takes_dedup_branch_past (value : SetArg) (hs : HistoryState) :
  takes_dedup_branch value hs = true ->
  exists p v, past hs = p ++ [v]
              /\ truthy v = true
              /\ isEqual v (nextValue_of value hs) = true
              /\ isEqual (nextValue_of value hs) (present hs) = false.
Proof.
  unfold takes_dedup_branch. intro H.
  apply andb_true_iff in H. destruct H as [Hne H].
  apply negb_true_iff in Hne. apply andb_true_iff in H. destruct H as [Ht He].
  destruct (snoc_cases (past hs)) as [E|[p [v E]]].
  - rewrite E in Ht. discriminate.
  - rewrite E, index_last_snoc in Ht, He. now exists p, v.
Qed.

Lemma effective_set_present (value : SetArg) (m : Hook) :
  isEqual (nextValue_of value (contents m)) (present (contents m)) = false ->
  present (contents (setState value m)) = nextValue_of value (contents m)
  /\ lastSavedState (setState value m) = lastSavedState m.
Proof.
  intro Hne. destruct (takes_dedup_branch value (contents m)) eqn:Hd.
  - rewrite setState_dedup by assumption. split; reflexivity.
  - rewrite setState_push by assumption. split; reflexivity.
Qed.

(** X7.  After setState, present is structurally equal to the value asked
    for, whichever branch was taken; when the value differed from present,
    present is that very value. *)
Theorem set_present_is_requested (value : SetArg) (m : Hook) :
  isEqual (present (contents (setState value m)))
          (nextValue_of value (contents m)) = true
  /\ (isEqual (nextValue_of value (contents m)) (present (contents m)) = false ->
      present (contents (setState value m)) = nextValue_of value (contents m)).
Proof.
  destruct (setState_cases value m) as [[He E]|[[Hd E]|[Hne [_ E]]]].
  - rewrite E. split; [now rewrite isEqual_sym | congruence].
  - rewrite E. split; [apply isEqual_refl | reflexivity].
  - rewrite E. split; [apply isEqual_refl | reflexivity].
Qed.

Lemma set_present_is_requested_witness :
  present (contents (setState (Updater (fun prev => Array [prev; prev]))
                              after_a_b_c_undo))
  = Array [Str "b"; Str "b"].
Proof.
  apply (proj2 (set_present_is_requested
                  (Updater (fun prev => Array [prev; prev])) after_a_b_c_undo)).
  reflexivity.
Defined.

(** X8.  A set whose value differs from present always leaves something to
    undo; and unless it takes the deduplication branch it leaves nothing to
    redo. *)
Theorem effective_set_enables_undo (value : SetArg) (m : Hook) :
  isEqual (nextValue_of value (contents m)) (present (contents m)) = false ->
  canUndo (setState value m) = true
  /\ (takes_dedup_branch value (contents m) = false ->
      canRedo (setState value m) = false).
Proof.
  intro Hne. split.
  - apply canUndo_true_iff.
    destruct (takes_dedup_branch value (contents m)) eqn:Hd.
    + destruct (takes_dedup_branch_past value (contents m) Hd)
        as [p [v [Hp _]]].
      rewrite setState_dedup by assumption. unfold contents at 1. simpl.
      rewrite Hp. now destruct p.
    + rewrite setState_push by assumption. unfold contents at 1. simpl.
      now destruct (past (contents m)).
  - intro Hd. now rewrite setState_push.
Qed.

Lemma effective_set_enables_undo_witness :
  canUndo (setState (Literal (num 1)) (useUndoRedo (num 0))) = true
  /\ canRedo (setState (Literal (num 1)) (useUndoRedo (num 0))) = false.
Proof.
  split.
  - apply (proj1 (effective_set_enables_undo
                    (Literal (num 1)) (useUndoRedo (num 0)) eq_refl)).
  - apply (proj2 (effective_set_enables_undo
                    (Literal (num 1)) (useUndoRedo (num 0)) eq_refl)).
    reflexivity.
Defined.

(** X9.  A set that pushes a frame is undone by one undo: past and present
    are back as they were, and the value set is the only entry of future
    (what future held before the set stays lost). *)
Theorem undo_after_pushing_set (value : SetArg) (m : Hook) :
  isEqual (nextValue_of value (contents m)) (present (contents m)) = false ->
  takes_dedup_branch value (contents m) = false ->
  contents (undo (setState value m))
  = mkHistory (past (contents m)) (present (contents m))
              [nextValue_of value (contents m)].
Proof.
  intros Hne Hd. rewrite setState_push by assumption.
  rewrite (undo_snoc _ (past (contents m)) (present (contents m)))
    by reflexivity.
  reflexivity.
Qed.

Lemma undo_after_pushing_set_witness :
  contents (undo (setState (Literal (num 5)) after_0_1_2_undo))
  = mkHistory [num 0] (num 1) [num 5].
Proof.
  apply (undo_after_pushing_set (Literal (num 5)) after_0_1_2_undo);
    reflexivity.
Defined.

(** X10.  A set that takes the deduplication branch overwrites present
    without keeping it: the timeline afterwards is past, the new value,
    future, and an undo gives the last entry of past, not the value that was
    overwritten. *)
Theorem dedup_branch_overwrites_present
        (value : SetArg) (m : Hook) (p : list Value) (v : Value) :
  past (contents m) = p ++ [v] ->
  takes_dedup_branch value (contents m) = true ->
  timeline (contents (setState value m))
  = past (contents m) ++ nextValue_of value (contents m) :: future (contents m)
  /\ contents (undo (setState value m))
     = mkHistory p v (nextValue_of value (contents m) :: future (contents m)).
Proof.
  intros Hp Hd. rewrite setState_dedup by assumption. split; [reflexivity|].
  now rewrite (undo_snoc _ p v) by exact Hp.
Qed.

Lemma dedup_branch_overwrites_present_witness :
  timeline (contents (setState (Literal (Str "a")) after_a_b_c_undo))
  = [Str "a"] ++ Str "a" :: [Str "c"]
  /\ contents (undo (setState (Literal (Str "a")) after_a_b_c_undo))
     = mkHistory [] (Str "a") [Str "a"; Str "c"].
Proof.
  apply (dedup_branch_overwrites_present
           (Literal (Str "a")) after_a_b_c_undo [] (Str "a"));
    reflexivity.
Defined.

(** X11.  After any number of set calls on a freshly constructed manager
    there is nothing to redo. *)
Theorem sets_never_enable_redo (init : Value) (values : list SetArg) :
  canRedo (fold_left (fun m' v => setState v m') values (useUndoRedo init))
  = false.
Proof.
  unfold canRedo. fold (contents (fold_left (fun m' v => setState v m') values
                                            (useUndoRedo init))).
  rewrite sets_keep_empty_future; reflexivity.
Qed.

(** *** The saved marker and hasUnsavedChanges *)

Lemma event_markAsSaved (m : Hook) :
  rendered m -> event [OpMarkAsSaved] m = markAsSaved m.
Proof.
  unfold rendered, event, render_if_changed. simpl. intro R.
  now rewrite R, Nat.eqb_refl.
Qed.

(** X12.  A freshly constructed manager returns hasUnsavedChanges = false.
    markAsSaved called in an event of its own, the hook being in step with
    its last render, saves the current present, so that the next render
    computes hasUnsavedChanges = false; but it schedules no render: the
    hasUnsavedChanges the hook has returned stays what it was.  A second
    markAsSaved changes nothing. *)
Theorem markAsSaved_schedules_no_render (init : Value) (m : Hook) :
  shown_hasUnsavedChanges (view (useUndoRedo init)) = false
  /\ (rendered m ->
      lastSavedState (event [OpMarkAsSaved] m) = present (contents m)
      /\ shown_hasUnsavedChanges (view (event [OpMarkAsSaved] m))
         = shown_hasUnsavedChanges (view m)
      /\ hasUnsavedChanges (event [OpMarkAsSaved] m) = false
      /\ shown_hasUnsavedChanges
           (view (render (event [OpMarkAsSaved] m))) = false)
  /\ markAsSaved (markAsSaved m) = markAsSaved m.
Proof.
  split; [|split].
  - simpl. now rewrite isEqual_refl.
  - intro R. rewrite (event_markAsSaved m R).
    assert (H : hasUnsavedChanges (markAsSaved m) = false).
    { unfold hasUnsavedChanges, rendered in *. simpl. rewrite R.
      now rewrite isEqual_refl. }
    unfold rendered, contents in *. simpl. rewrite R.
    repeat split; exact H.
  - reflexivity.
Qed.

Lemma markAsSaved_schedules_no_render_witness :
  lastSavedState
    (event [OpMarkAsSaved] (event [OpSet (Literal (num 1))] (useUndoRedo (num 0))))
  = num 1
  /\ shown_hasUnsavedChanges
       (view (event [OpMarkAsSaved]
                    (event [OpSet (Literal (num 1))] (useUndoRedo (num 0)))))
     = true
  /\ hasUnsavedChanges
       (event [OpMarkAsSaved]
              (event [OpSet (Literal (num 1))] (useUndoRedo (num 0))))
     = false.
Proof.
  destruct (proj1 (proj2 (markAsSaved_schedules_no_render
                            (num 0)
                            (event [OpSet (Literal (num 1))]
                                   (useUndoRedo (num 0))))))
    as [H1 [H2 [H3 _]]]; [reflexivity|].
  split; [exact H1 | split; [exact H2 | exact H3]].
Defined.

(** X13.  From a state without unsaved changes, a set whose value differs
    from present makes hasUnsavedChanges true; when that set pushed a frame,
    undoing it makes hasUnsavedChanges false again. *)
Theorem set_marks_unsaved (value : SetArg) (m : Hook) :
  hasUnsavedChanges m = false ->
  isEqual (nextValue_of value (contents m)) (present (contents m)) = false ->
  hasUnsavedChanges (setState value m) = true
  /\ (takes_dedup_branch value (contents m) = false ->
      hasUnsavedChanges (undo (setState value m)) = false).
Proof.
  unfold hasUnsavedChanges. fold (contents m). intros Hc Hne.
  apply negb_false_iff in Hc. split.
  - apply negb_true_iff.
    fold (contents (setState value m)).
    destruct (effective_set_present value m Hne) as [Hp Hs].
    rewrite Hp, Hs.
    destruct (isEqual (nextValue_of value (contents m)) (lastSavedState m))
      eqn:E; [|reflexivity].
    rewrite isEqual_sym in Hc.
    rewrite (isEqual_trans _ _ _ E Hc) in Hne. discriminate.
  - intro Hd. apply negb_false_iff.
    rewrite setState_push by assumption.
    rewrite (undo_snoc _ (past (contents m)) (present (contents m)))
      by reflexivity.
    exact Hc.
Qed.

Lemma set_marks_unsaved_witness :
  hasUnsavedChanges (setState (Literal (num 1)) (useUndoRedo (num 0))) = true
  /\ hasUnsavedChanges (undo (setState (Literal (num 1)) (useUndoRedo (num 0))))
     = false.
Proof.
  split.
  - apply (proj1 (set_marks_unsaved
                    (Literal (num 1)) (useUndoRedo (num 0)) eq_refl eq_refl)).
  - apply (proj2 (set_marks_unsaved
                    (Literal (num 1)) (useUndoRedo (num 0)) eq_refl eq_refl)).
    reflexivity.
Defined.

(** *** Which calls store a new object *)

Lemma run_well_formed (ops : list Op) (m : Hook) :
  well_formed m -> well_formed (run ops m).
Proof.
  revert m. induction ops as [|op ops IH]; intros m H; [exact H|].
  simpl. apply IH. now apply step_well_formed.
Qed.

(** X14.  In a state reached from construction (the stored object is one of
    those built so far), set stores the object it found exactly when the
    value is structurally equal to present, undo exactly when past is empty,
    redo exactly when future is empty; in every other case the stored object
    is a new one. *)
Theorem same_object_iff_noop (value : SetArg) (m : Hook) :
  well_formed m ->
  (ident (history (setState value m)) = ident (history m)
   <-> isEqual (nextValue_of value (contents m)) (present (contents m)) = true)
  /\ (ident (history (undo m)) = ident (history m) <-> canUndo m = false)
  /\ (ident (history (redo m)) = ident (history m) <-> canRedo m = false).
Proof.
  unfold well_formed. intro Hw. repeat split.
  - intro E.
    destruct (isEqual (nextValue_of value (contents m)) (present (contents m)))
      eqn:Hne; [reflexivity|].
    exfalso. revert E. now apply setState_changed_is_new_object.
  - intro He. now rewrite setState_same.
  - intro E. destruct (canUndo m) eqn:C; [|reflexivity].
    apply canUndo_true_iff in C.
    destruct (snoc_cases (past (contents m))) as [P|[p [x P]]];
      [contradiction|].
    rewrite (undo_snoc m p x P) in E. simpl in E. lia.
  - intro C. rewrite undo_empty_past; [reflexivity|].
    destruct (past (contents m)) eqn:P; [reflexivity|].
    assert (canUndo m = true) by (apply canUndo_true_iff; congruence).
    congruence.
  - intro E. destruct (canRedo m) eqn:C; [|reflexivity].
    apply canRedo_true_iff in C.
    destruct (future (contents m)) as [|x f] eqn:F; [contradiction|].
    rewrite (redo_cons m x f F) in E. simpl in E. lia.
  - intro C. rewrite redo_empty_future; [reflexivity|].
    destruct (future (contents m)) eqn:F; [reflexivity|].
    assert (canRedo m = true) by (apply canRedo_true_iff; congruence).
    congruence.
Qed.

Lemma same_object_iff_noop_witness :
  ident (history (setState (Literal (num 1)) after_0_1_2_undo))
  = ident (history after_0_1_2_undo)
  /\ ident (history (undo (useUndoRedo Null))) = ident (history (useUndoRedo Null))
  /\ ident (history (redo after_1_2_1)) = ident (history after_1_2_1).
Proof.
  split; [|split].
  - destruct (same_object_iff_noop (Literal (num 1)) after_0_1_2_undo)
      as [H _]; [unfold well_formed; simpl; lia|].
    apply (proj2 H). reflexivity.
  - destruct (same_object_iff_noop (Literal Null) (useUndoRedo Null))
      as [_ [H _]]; [unfold well_formed; simpl; lia|].
    apply (proj2 H). reflexivity.
  - destruct (same_object_iff_noop (Literal Null) after_1_2_1)
      as [_ [_ H]]; [unfold well_formed; simpl; lia|].
    apply (proj2 H). reflexivity.
Defined.

(** X15.  reset always stores a newly built object, also when the history
    already was past=[], present=X, future=[]; afterwards there is nothing
    to undo or redo, and undo and redo leave the state as it is. *)
Theorem reset_stores_new_object (newState : Value) (m : Hook) :
  well_formed m ->
  ident (history (reset newState m)) <> ident (history m)
  /\ canUndo (reset newState m) = false
  /\ canRedo (reset newState m) = false
  /\ undo (reset newState m) = reset newState m
  /\ redo (reset newState m) = reset newState m.
Proof.
  unfold well_formed. intro Hw. repeat split. simpl. lia.
Qed.

Lemma reset_stores_new_object_witness :
  contents (reset (num 0) (useUndoRedo (num 0))) = contents (useUndoRedo (num 0))
  /\ ident (history (reset (num 0) (useUndoRedo (num 0))))
     <> ident (history (useUndoRedo (num 0))).
Proof.
  split; [reflexivity|].
  apply (reset_stores_new_object (num 0) (useUndoRedo (num 0))).
  unfold well_formed. simpl. lia.
Defined.

(** *** A run of distinct writes *)

Lemma last_cons_default (v d : Value) (r : list Value) :
  last (v :: r) d = last r v.
Proof.
  revert v d. induction r as [|a r IH]; intros v d; [reflexivity|].
  change (last (v :: a :: r) d) with (last (a :: r) d).
  now rewrite !IH.
Qed.

Lemma set_each_distinct (vs : list Value) (m : Hook) :
  future (contents m) = [] ->
  distinct_writes (index (past (contents m)) (len (past (contents m)) - 1))
                  (present (contents m)) vs = true ->
  contents (set_each vs m)
  = mkHistory (removelast (past (contents m) ++ present (contents m) :: vs))
              (last vs (present (contents m))) [].
Proof.
  revert m. induction vs as [|v vs IH]; intros m Hf Hd.
  - unfold set_each. simpl. rewrite removelast_last.
    unfold contents in *. destruct (deref (history m)); simpl in *.
    now subst.
  - simpl in Hd. apply andb_true_iff in Hd. destruct Hd as [Hd Hrest].
    apply andb_true_iff in Hd. destruct Hd as [Hne Hnd].
    apply negb_true_iff in Hne, Hnd.
    assert (Hb : takes_dedup_branch (Literal v) (contents m) = false).
    { unfold takes_dedup_branch. simpl. rewrite Hne, Hnd. reflexivity. }
    assert (E : contents (setState (Literal v) m)
                = mkHistory (past (contents m) ++ [present (contents m)]) v [])
      by now rewrite setState_push.
    change (set_each (v :: vs) m) with (set_each vs (setState (Literal v) m)).
    rewrite IH; rewrite E; cbn [past present future].
    + rewrite <- app_assoc. cbn [app]. now rewrite last_cons_default.
    + reflexivity.
    + now rewrite index_last_snoc.
Qed.

(** X16.  After construct(v0) and set(v1); ..; set(vn), where each value
    differs from the one before it and is not equal to a truthy value two
    places before it, present is vn, past is [v0; ..; v(n-1)] and future is
    empty. *)
Theorem distinct_writes_are_all_recorded (init : Value) (vs : list Value) :
  distinct_writes Undefined init vs = true ->
  contents (set_each vs (useUndoRedo init))
  = mkHistory (removelast (init :: vs)) (last vs init) [].
Proof.
  intro H. now rewrite set_each_distinct.
Qed.

Lemma distinct_writes_are_all_recorded_witness :
  contents (set_each [num 1; num 0; num 2] (useUndoRedo (num 0)))
  = mkHistory [num 0; num 1; num 0] (num 2) [].
Proof.
  apply (distinct_writes_are_all_recorded (num 0) [num 1; num 0; num 2]).
  reflexivity.
Defined.

(* ================================================================== *)
(** ** Events and renders *)

(** A call leaves the last render alone, and either keeps the stored object
    or stores the next one built. *)
Lemma step_store (m : Hook) (op : Op) :
  view (step m op) = view m
  /\ ((history (step m op) = history m /\ built (step m op) = built m)
      \/ (ident (history (step m op)) = built m
          /\ built (step m op) = S (built m))).
Proof.
  destruct op as [value| | |newState|]; simpl.
  - destruct (setState_cases value m) as [[_ E]|[[Hd _]|[Hne [Hd _]]]].
    + rewrite E. auto.
    + rewrite setState_dedup by assumption. simpl. auto.
    + rewrite setState_push by assumption. simpl. auto.
  - destruct (snoc_cases (past (contents m))) as [E|[p [x E]]].
    + rewrite undo_empty_past by assumption. auto.
    + rewrite (undo_snoc m p x E). simpl. auto.
  - destruct (future (contents m)) as [|x f] eqn:E.
    + rewrite redo_empty_future by assumption. auto.
    + rewrite (redo_cons m x f E). simpl. auto.
  - auto.
  - auto.
Qed.

Lemma useUndoRedo_coherent (init : Value) :
  coherent (useUndoRedo init) /\ rendered (useUndoRedo init).
Proof. unfold coherent, rendered. simpl. repeat split; lia. Qed.

Lemma step_coherent (m : Hook) (op : Op) :
  coherent m -> coherent (step m op).
Proof.
  unfold coherent. intros [Hh [Hs Hi]].
  destruct (step_store m op) as [Hv [[E1 E2]|[E1 E2]]];
    rewrite Hv, E1, E2; repeat split; try lia; try assumption.
Qed.

Lemma run_coherent (ops : list Op) (m : Hook) :
  coherent m -> coherent (run ops m).
Proof.
  revert m. induction ops as [|op ops IH]; intros m H; [exact H|].
  simpl. apply IH. now apply step_coherent.
Qed.

(** After an event the hook is in step with its last render. *)
Lemma event_rendered (ops : list Op) (m : Hook) :
  coherent m -> coherent (event ops m) /\ rendered (event ops m).
Proof.
  intro H. apply (run_coherent ops) in H.
  unfold event, render_if_changed.
  destruct (Nat.eqb_spec (ident (history (run ops m)))
                         (ident (seen (view (run ops m))))) as [E|E].
  - split; [exact H|]. destruct H as [_ [_ Hi]]. unfold rendered. auto.
  - destruct H as [Hh _]. unfold coherent, rendered. simpl. auto.
Qed.

Lemma events_rendered (handlers : list (list Op)) (init : Value) :
  coherent (events handlers (useUndoRedo init))
  /\ rendered (events handlers (useUndoRedo init)).
Proof.
  unfold events.
  generalize (useUndoRedo_coherent init). generalize (useUndoRedo init).
  induction handlers as [|ops handlers IH]; intros m H; [exact H|].
  simpl. apply IH. apply event_rendered. apply H.
Qed.

(** What a call stores depends on what is stored, not on the last render or
    the saved marker. *)
Lemma step_store_congr (m1 m2 : Hook) (op : Op) :
  history m1 = history m2 -> built m1 = built m2 ->
  history (step m1 op) = history (step m2 op)
  /\ built (step m1 op) = built (step m2 op).
Proof.
  destruct m1 as [h1 b1 s1 v1], m2 as [h2 b2 s2 v2]. simpl.
  intros -> ->. destruct op as [value| | |newState|]; simpl.
  - unfold setState, setHistory_with. simpl.
    now destruct (setState_updater value h2 b2).
  - unfold undo, setHistory_with. simpl. now destruct (undo_updater h2 b2).
  - unfold redo, setHistory_with. simpl. now destruct (redo_updater h2 b2).
  - auto.
  - auto.
Qed.

Lemma run_store_congr (ops : list Op) (m1 m2 : Hook) :
  history m1 = history m2 -> built m1 = built m2 ->
  history (run ops m1) = history (run ops m2)
  /\ built (run ops m1) = built (run ops m2).
Proof.
  revert m1 m2. induction ops as [|op ops IH]; intros m1 m2 Hh Hb; [auto|].
  simpl. destruct (step_store_congr m1 m2 op Hh Hb). now apply IH.
Qed.

Lemma render_if_changed_store (m : Hook) :
  history (render_if_changed m) = history m
  /\ built (render_if_changed m) = built m.
Proof.
  unfold render_if_changed.
  destruct (Nat.eqb (ident (history m)) (ident (seen (view m)))); auto.
Qed.

(** The history stored after a series of events is the one the same calls
    store when no render comes between them. *)
Lemma events_store (handlers : list (list Op)) (m : Hook) :
  history (events handlers m) = history (run (List.concat handlers) m)
  /\ built (events handlers m) = built (run (List.concat handlers) m).
Proof.
  unfold events. revert m.
  induction handlers as [|ops handlers IH]; intro m; [auto|].
  cbn [fold_left List.concat].
  destruct (IH (event ops m)) as [E1 E2]. rewrite E1, E2.
  assert (R : run (ops ++ List.concat handlers) m
              = run (List.concat handlers) (run ops m))
    by apply fold_left_app.
  rewrite R.
  destruct (render_if_changed_store (run ops m)) as [R1 R2].
  now apply run_store_congr.
Qed.
